(** * preprocess.py: corpus cleaning and vocabulary reduction

    A shallow embedding of [src/preprocess.py] and the properties of its
    pipeline: Loader ([get_sentences_from_document]), Cleaner
    ([clean_sentences]), Vocabulary Builder ([get_vocabulary_count],
    [reduce_vocab]), Rewriter ([update_dataset]) and the orchestration
    ([preprocess_file], [main]).

    A Python [str] is a sequence of Unicode code points; it is modelled as
    [list N].  Python [int]s are unbounded and modelled as [Z].  The
    [Counter] is a [gmap] from words to counts, the reduced vocabulary a
    [gset] of words. *)

From Stdlib Require Import ZArith NArith Ascii String.
From stdpp Require Import gmap list.

Local Open Scope N_scope.

(** ** Python strings *)

Abbreviation str := (list N).

(** A string literal of the source, as its code points. *)
Definition lit (s : string) : str := map N_of_ascii (list_ascii_of_string s).

Module Py.

(** [str.isspace] on one code point: the table of CPython's
    [_PyUnicode_IsWhitespace], which [str.split()] and [str.strip()]
    consult. *)
Definition isspace (c : N) : bool :=
  ((9 <=? c) && (c <=? 13)) || ((28 <=? c) && (c <=? 32))
  || (c =? 133) || (c =? 160) || (c =? 5760)
  || ((8192 <=? c) && (c <=? 8202))
  || (c =? 8232) || (c =? 8233) || (c =? 8239) || (c =? 8287)
  || (c =? 12288).

(** Cut [s] at every code point satisfying [sep], keeping empty fields.
    With [sep] the test for one character this is [s.split(ch)]. *)
Fixpoint split_on (sep : N → bool) (s : str) : list str :=
  match s with
  | [] => [[]]
  | c :: s' =>
      if sep c then [] :: split_on sep s'
      else match split_on sep s' with
           | w :: ws => (c :: w) :: ws
           | [] => [[c]]
           end
  end.

Definition nonempty (w : str) : bool :=
  match w with [] => false | _ => true end.

(** [s.split()]: runs of whitespace separate the words and no empty word
    is returned. *)
Definition split (s : str) : list str :=
  List.filter nonempty (split_on isspace s).

(** [s.split("\n")]. *)
Definition split_lines (s : str) : list str := split_on (N.eqb 10) s.

(** [sep.join(ws)]. *)
Fixpoint join (sep : str) (ws : list str) : str :=
  match ws with
  | [] => []
  | [w] => w
  | w :: ws' => w ++ sep ++ join sep ws'
  end.

Fixpoint lstrip (s : str) : str :=
  match s with
  | [] => []
  | c :: s' => if isspace c then lstrip s' else s
  end.

Definition rstrip (s : str) : str := reverse (lstrip (reverse s)).

(** [s.strip()]. *)
Definition strip (s : str) : str := rstrip (lstrip s).

(** [bytes.decode] after [s.encode("ascii", "ignore")]: the code points
    that are not ASCII are left out; the others are kept in order. *)
Definition is_ascii (c : N) : bool := c <? 128.

Definition encode_ascii_ignore (s : str) : str := List.filter is_ascii s.

Definition is_upper (c : N) : bool := (65 <=? c) && (c <=? 90).
Definition is_lower (c : N) : bool := (97 <=? c) && (c <=? 122).

(** [str.lower] on ASCII text, which is all the Cleaner applies it to
    (the words come out of [encode_ascii_ignore]). *)
Definition lower_char (c : N) : N := if is_upper c then c + 32 else c.
Definition lower (w : str) : str := map lower_char w.

(** [str.isalpha] on ASCII text: a non-empty word of letters. *)
Definition isalpha_char (c : N) : bool := is_upper c || is_lower c.
Definition isalpha (w : str) : bool := nonempty w && forallb isalpha_char w.

(** [string.punctuation], [string.whitespace] and [string.printable]. *)
Definition punctuation : str :=
  lit "!" ++ [34] ++ lit "#$%&'()*+,-./:;<=>?@[\]^_`{|}~".
Definition ascii_letters : str :=
  lit "abcdefghijklmnopqrstuvwxyzABCDEFGHIJKLMNOPQRSTUVWXYZ".
Definition digits : str := lit "0123456789".
Definition whitespace : str := [32; 9; 10; 13; 11; 12].
Definition printable : str :=
  digits ++ ascii_letters ++ punctuation ++ whitespace.

Definition mem (c : N) (s : str) : bool := existsb (N.eqb c) s.

(** [w.translate(str.maketrans("", "", deleted))]. *)
Definition translate_delete (deleted : str) (w : str) : str :=
  List.filter (λ c, negb (mem c deleted)) w.

(** [re.compile("[^%s]" % re.escape(allowed)).sub("", w)]. *)
Definition re_sub_not_in (allowed : str) (w : str) : str :=
  List.filter (λ c, mem c allowed) w.

(** What [open(filename, "r").read()] does to the decoded text: with
    universal newlines, [\r\n] and a lone [\r] are read as [\n]. *)
Fixpoint universal_newlines (s : str) : str :=
  match s with
  | [] => []
  | c :: s' =>
      if c =? 13 then
        10 :: match s' with
              | d :: s'' => if d =? 10 then universal_newlines s''
                            else universal_newlines s'
              | [] => []
              end
      else c :: universal_newlines s'
  end.

End Py.

(** ** Values, errors and the outside world *)

(** The threshold reaches [reduce_vocab] untyped: the default is the
    integer [4], a value given on the command line is the string that
    [argparse] read (the option declares no [type]). *)
Inductive pyval :=
  | PyInt (n : Z)
  | PyStr (s : str).

Inductive exn :=
  | FileNotFoundError
  | PermissionError
  | TypeError.

Inductive result (A : Type) :=
  | Ok (a : A)
  | Raise (e : exn).
Arguments Ok {A} a.
Arguments Raise {A} e.

(** The files the program can see: the text files it may read, the
    pickled lists it has dumped, and the paths that cannot be opened for
    writing.  The text of a path overwritten by a dump is not tracked; the
    pipeline reads its input before it writes. *)
Record world := World {
  texts : gmap str str;
  pickles : gmap str (list str);
  unwritable : gset str
}.

(** Computations that read and write the world and may raise. *)
Definition io (A : Type) : Type := world → result A * world.

#[global] Instance io_ret : MRet io := λ A a w, (Ok a, w).

#[global] Instance io_bind : MBind io := λ A B k m w,
  match m w with
  | (Ok a, w') => k a w'
  | (Raise e, w') => (Raise e, w')
  end.

Definition lift {A} (r : result A) : io A := λ w, (r, w).

(** [open(filename, "r")] followed by [file.read()]. *)
Definition read_text (filename : str) : io str :=
  λ w, match texts w !! filename with
       | Some raw => (Ok (Py.universal_newlines raw), w)
       | None => (Raise FileNotFoundError, w)
       end.

(** [pickle.dump(obj, open(path, "wb"))]: an existing artifact is
    overwritten. *)
Definition pickle_dump (obj : list str) (path : str) : io unit :=
  λ w, if decide (path ∈ unwritable w) then (Raise PermissionError, w)
       else (Ok tt, World (texts w) (<[path := obj]> (pickles w)) (unwritable w)).

(** ** The pipeline *)

(** A [for] loop that appends one element per iteration. *)
Definition for_append {A B} (f : A → B) (l : list A) : list B :=
  foldl (λ acc x, acc ++ [f x]) [] l.

Definition get_sentences_from_document (filename : str) : io (list str) :=
  raw_text ← read_text filename;
  let sentences := Py.split_lines (Py.strip raw_text) in
  mret sentences.

(** [Counter.update(words)]: one more for every word, starting from [0]. *)
Definition counter_update (voc : gmap str Z) (words : list str) : gmap str Z :=
  foldl (λ voc w, <[w := (default 0 (voc !! w) + 1)%Z]> voc) voc words.

Definition get_vocabulary_count (sentences : list str) : gmap str Z :=
  foldl (λ voc sentence, let words := Py.split sentence in counter_update voc words)
        ∅ sentences.

(** [cnt >= threshold] for an [int] count: comparing with a [str] raises. *)
Definition int_ge (cnt : Z) (threshold : pyval) : result bool :=
  match threshold with
  | PyInt t => Ok (t <=? cnt)%Z
  | PyStr _ => Raise TypeError
  end.

(** [[word for word, cnt in items if cnt >= threshold]]. *)
Fixpoint words_at_least (items : list (str * Z)) (threshold : pyval) : result (list str) :=
  match items with
  | [] => Ok []
  | (word, cnt) :: items' =>
      match int_ge cnt threshold with
      | Raise e => Raise e
      | Ok keep =>
          match words_at_least items' threshold with
          | Raise e => Raise e
          | Ok ws => Ok (if keep then word :: ws else ws)
          end
      end
  end.

Definition reduce_vocab (vocab : gmap str Z) (threshold : pyval) : result (gset str) :=
  match words_at_least (map_to_list vocab) threshold with
  | Ok ws => Ok (list_to_set ws)
  | Raise e => Raise e
  end.

Definition uup : str := lit "uup".

Definition str_eqb (a b : str) : bool := bool_decide (a = b).

Definition update_line (vocab : gset str) (line : str) : str :=
  let new_words :=
    foldl (λ new_words t,
             if decide (t ∈ vocab) then new_words ++ [t]
             else new_words ++ [uup])
          [] (Py.split line) in
  let new_words := List.filter (λ word, negb (str_eqb word (lit "s"))) new_words in
  Py.join (lit " ") new_words.

Definition update_dataset (sentences : list str) (vocab : gset str) : list str :=
  for_append (update_line vocab) sentences.

(** The Rewriter told token by token: what becomes of one token [t] of a
    line.  [update_dataset] is compared with it below. *)
Definition rewrite_token (vocab : gset str) (t : str) : list str :=
  if decide (t ∈ vocab) then
    if decide (t = lit "s") then [] else [t]
  else [uup].

(** The options as given on the command line; [None] is an option left
    out, which takes its default. *)
Record cli := Cli {
  cli_input : option str;
  cli_output : option str;
  cli_vocab_reduction_threshold : option str
}.

Section Cleaner.

(** [unicodedata.normalize("NFD", _)]: the canonical decomposition, a
    table of the Unicode database. *)
Variable normalize_NFD : str → str.

Definition clean_line (line : str) : str :=
  let line := Py.encode_ascii_ignore (normalize_NFD line) in
  let words := Py.split line in
  let lowercase_words := map Py.lower words in
  let punctuationless_words := map (Py.translate_delete Py.punctuation) lowercase_words in
  let printable_words := map (Py.re_sub_not_in Py.printable) punctuationless_words in
  let non_numeric_words := List.filter Py.isalpha printable_words in
  Py.join (lit " ") non_numeric_words.

(** The words of the cleaned line, before they are joined. *)
Definition cleaned_words (line : str) : list str :=
  List.filter Py.isalpha
    (map (Py.re_sub_not_in Py.printable)
       (map (Py.translate_delete Py.punctuation)
          (map Py.lower
             (Py.split (Py.encode_ascii_ignore (normalize_NFD line)))))).

Definition clean_sentences (lines : list str) : list str :=
  for_append clean_line lines.

Definition preprocess_file (input_filename output_filename : str)
    (vocab_reduction_threshold : pyval) : io unit :=
  raw_sentences ← get_sentences_from_document input_filename;
  let cleaned_sentences := clean_sentences raw_sentences in
  pickle_dump cleaned_sentences (output_filename ++ lit ".pkl");;
  let vocab := get_vocabulary_count cleaned_sentences in
  reduced_vocab ← lift (reduce_vocab vocab vocab_reduction_threshold);
  let new_data := update_dataset cleaned_sentences reduced_vocab in
  pickle_dump new_data (output_filename ++ lit ".reduced.pkl").

Definition main (argv : cli) : io unit :=
  let input := default (lit "Input.txt") (cli_input argv) in
  let output := default (lit "Output.txt") (cli_output argv) in
  let vocab_reduction_threshold :=
    match cli_vocab_reduction_threshold argv with
    | Some s => PyStr s
    | None => PyInt 4
    end in
  preprocess_file input output vocab_reduction_threshold.

End Cleaner.

(** The canonical decomposition restricted to a few precomposed Latin
    letters (each becomes its base letter and a combining mark); every
    other code point is left as it is.  It is the instance the scenarios
    run on. *)
Definition decompose_fragment (c : N) : str :=
  if c =? 224 then [97; 768] else       (* a grave *)
  if c =? 225 then [97; 769] else       (* a acute *)
  if c =? 231 then [99; 807] else       (* c cedilla *)
  if c =? 232 then [101; 768] else      (* e grave *)
  if c =? 233 then [101; 769] else      (* e acute *)
  if c =? 241 then [110; 771] else      (* n tilde *)
  if c =? 246 then [111; 776] else      (* o diaeresis *)
  if c =? 252 then [117; 776] else      (* u diaeresis *)
  [c].

Definition nfd_fragment (s : str) : str := flat_map decompose_fragment s.

(** ** Predicates of the statements *)

(** A word: what [split()] returns, a non-empty string without
    whitespace. *)
Definition word (w : str) : Prop :=
  w ≠ [] ∧ Forall (λ c, Py.isspace c = false) w.

(** A word of the letters a to z. *)
Definition lowercase_word (w : str) : Prop :=
  w ≠ [] ∧ Forall (λ c, 97 ≤ c ∧ c ≤ 122) w.

(** All the tokens of a corpus, line after line. *)
Definition tokens_of (sentences : list str) : list str :=
  concat (map Py.split sentences).

(** How many times the word [w] occurs in a list of tokens. *)
Definition occurrences (w : str) (tokens : list str) : nat :=
  length (List.filter (str_eqb w) tokens).

(** What the proofs use about a letter a to z, as one test. *)
Definition letter_facts (c : N) : bool :=
  negb (Py.isspace c) && Py.is_ascii c && (Py.lower_char c =? c)
  && negb (Py.mem c Py.punctuation) && Py.mem c Py.printable
  && Py.isalpha_char c.

(** ** Scenarios *)

Example split_ex : Py.split (lit "  the  s nice ") = [lit "the"; lit "s"; lit "nice"].
Proof. reflexivity. Qed.

Example split_lines_ex : Py.split_lines (lit "") = [lit ""].
Proof. reflexivity. Qed.

Example punct_ex : length Py.punctuation = 32%nat /\ length Py.printable = 100%nat.
Proof. split; reflexivity. Qed.

Example scenario1 :
  clean_sentences nfd_fragment [lit "Caf" ++ [233] ++ lit " costs 5 dollars!"]
  = [lit "cafe costs dollars"].
Proof. vm_compute. reflexivity. Qed.

Example scenario2 :
  reduce_vocab (<[lit "the" := 10%Z]> (<[lit "cafe" := 2%Z]> ∅)) (PyInt 4)
  = Ok {[ lit "the" ]}.
Proof. vm_compute. reflexivity. Qed.

Example scenario3 :
  update_dataset [lit "the cafe is nice"] {[ lit "the"; lit "is"; lit "nice" ]}
  = [lit "the uup is nice"].
Proof. vm_compute. reflexivity. Qed.

(** ** Loops *)

Lemma for_append_from {A B} (f : A → B) (l : list A) (acc : list B) :
  foldl (λ acc x, acc ++ [f x]) acc l = acc ++ map f l.
Proof.
  revert acc. induction l as [|x l IH]; intros acc; simpl.
  - by rewrite app_nil_r.
  - rewrite IH. by rewrite <- app_assoc.
Qed.

Lemma for_append_map {A B} (f : A → B) (l : list A) :
  for_append f l = map f l.
Proof. unfold for_append. by rewrite for_append_from. Qed.

(** ** Splitting and joining *)

Section Split.

Variable sep : N → bool.

Lemma split_on_not_nil s : Py.split_on sep s ≠ [].
Proof.
  destruct s as [|c s]; simpl; [done|].
  destruct (sep c); [done|]. by destruct (Py.split_on sep s).
Qed.

Lemma split_on_fields s :
  Forall (Forall (λ c, sep c = false)) (Py.split_on sep s).
Proof.
  induction s as [|c s IH]; simpl.
  - by repeat constructor.
  - destruct (sep c) eqn:Hc.
    + by constructor.
    + destruct (Py.split_on sep s) as [|w ws].
      * by repeat constructor.
      * inversion IH; subst. constructor; [by constructor | done].
Qed.

Lemma split_on_one w :
  Forall (λ c, sep c = false) w → Py.split_on sep w = [w].
Proof.
  induction 1 as [|c w Hc _ IH]; simpl; [done|]. by rewrite Hc, IH.
Qed.

Lemma split_on_cut w c s :
  Forall (λ c, sep c = false) w → sep c = true →
  Py.split_on sep (w ++ c :: s) = w :: Py.split_on sep s.
Proof.
  intros Hw Hc. induction Hw as [|d w Hd _ IH]; simpl.
  - by rewrite Hc.
  - by rewrite Hd, IH.
Qed.

Lemma split_on_join c ws :
  sep c = true → ws ≠ [] → Forall (Forall (λ c, sep c = false)) ws →
  Py.split_on sep (Py.join [c] ws) = ws.
Proof.
  intros Hc Hne Hws. induction Hws as [|w ws Hw Hws IH]; [done|].
  destruct ws as [|w' ws].
  - simpl. by apply split_on_one.
  - change (Py.join [c] (w :: w' :: ws)) with (w ++ c :: Py.join [c] (w' :: ws)).
    rewrite split_on_cut by done. by rewrite IH.
Qed.

End Split.

Lemma nonempty_true w : Py.nonempty w = true ↔ w ≠ [].
Proof. by destruct w. Qed.

Lemma filter_all {A} (p : A → bool) (l : list A) :
  Forall (λ x, p x = true) l → List.filter p l = l.
Proof. induction 1 as [|x l Hx _ IH]; simpl; [done|]. by rewrite Hx, IH. Qed.

Lemma Forall_filter_list {A} (P : A → Prop) (p : A → bool) (l : list A) :
  Forall P l → Forall P (List.filter p l).
Proof.
  induction 1 as [|x l Hx _ IH]; simpl; [done|].
  destruct (p x); [by constructor | done].
Qed.

Lemma split_words s : Forall word (Py.split s).
Proof.
  unfold Py.split.
  pose proof (split_on_fields Py.isspace s) as H.
  induction H as [|w ws Hw _ IH]; simpl; [done|].
  destruct (Py.nonempty w) eqn:Hn; [|done].
  constructor; [|done]. split; [by apply nonempty_true | done].
Qed.

Lemma split_join ws :
  Forall word ws → Py.split (Py.join (lit " ") ws) = ws.
Proof.
  intros Hws. destruct ws as [|w ws]; [done|].
  unfold Py.split. change (lit " ") with [32].
  rewrite split_on_join; [| done | done |].
  - apply filter_all. eapply Forall_impl; [exact Hws|].
    intros x [Hx _]. by apply nonempty_true.
  - eapply Forall_impl; [exact Hws|]. by intros x [_ Hx].
Qed.

(** ** Loader *)

Lemma lstrip_whitespace s :
  Forall (λ c, Py.isspace c = true) s → Py.lstrip s = [].
Proof. induction 1 as [|c s Hc _ IH]; simpl; [done|]. by rewrite Hc. Qed.

Lemma strip_whitespace s :
  Forall (λ c, Py.isspace c = true) s → Py.strip s = [].
Proof. intros H. unfold Py.strip. by rewrite lstrip_whitespace. Qed.

Lemma universal_newlines_whitespace s :
  Forall (λ c, Py.isspace c = true) s →
  Forall (λ c, Py.isspace c = true) (Py.universal_newlines s).
Proof.
  assert (∀ s, (Forall (λ c, Py.isspace c = true) s →
                Forall (λ c, Py.isspace c = true) (Py.universal_newlines s))
               ∧ ∀ c, Forall (λ c, Py.isspace c = true) (c :: s) →
                      Forall (λ c, Py.isspace c = true)
                             (Py.universal_newlines (c :: s))) as H.
  { clear s. induction s as [|d s [IH1 IH2]].
    - split; [done|]. intros c Hc. inversion Hc; subst. simpl.
      destruct (c =? 13); by repeat constructor.
    - split; [apply IH2|]. intros c Hc. inversion Hc as [|? ? Hc1 Hc2]; subst.
      cbn [Py.universal_newlines]. destruct (c =? 13).
      + constructor; [done|]. destruct (d =? 10).
        * apply IH1. by inversion Hc2.
        * by apply IH2.
      + constructor; [done|]. by apply IH2. }
  apply H.
Qed.

(** C10. Whenever the file can be read, [get_sentences_from_document]
    returns a list that is not empty; for a file that is empty or holds
    only whitespace the list is exactly the one empty string. *)
Theorem get_sentences_from_document_nonempty (w : world) (filename raw : str) :
  texts w !! filename = Some raw →
  ∃ sentences,
    get_sentences_from_document filename w = (Ok sentences, w)
    ∧ sentences ≠ []
    ∧ (Forall (λ c, Py.isspace c = true) raw → sentences = [lit ""]).
Proof.
  intros Hraw.
  exists (Py.split_lines (Py.strip (Py.universal_newlines raw))).
  split; [|split].
  - unfold get_sentences_from_document, mbind, io_bind, read_text.
    by rewrite Hraw.
  - apply split_on_not_nil.
  - intros Hws. rewrite strip_whitespace; [done|].
    by apply universal_newlines_whitespace.
Qed.

Lemma get_sentences_from_document_nonempty_witness :
  ∃ sentences,
    get_sentences_from_document (lit "Input.txt")
      (World {[ lit "Input.txt" := [32; 13; 10; 9] ]} ∅ ∅)
    = (Ok sentences, World {[ lit "Input.txt" := [32; 13; 10; 9] ]} ∅ ∅)
    ∧ sentences ≠ []
    ∧ (Forall (λ c, Py.isspace c = true) [32; 13; 10; 9] → sentences = [lit ""]).
Proof.
  apply (get_sentences_from_document_nonempty
           (World {[ lit "Input.txt" := [32; 13; 10; 9] ]} ∅ ∅)
           (lit "Input.txt") [32; 13; 10; 9]).
  reflexivity.
Defined.

(** ** Line counts *)

Lemma update_dataset_map (sentences : list str) (vocab : gset str) :
  update_dataset sentences vocab = map (update_line vocab) sentences.
Proof. apply for_append_map. Qed.

Lemma clean_sentences_map (nfd : str → str) (lines : list str) :
  clean_sentences nfd lines = map (clean_line nfd) lines.
Proof. apply for_append_map. Qed.

(** C1. The cleaned corpus and the reduced corpus have as many elements as
    the raw corpus, and an empty raw line is an empty string at the same
    position of both. *)
Theorem corpus_line_counts (nfd : str → str) (raw : list str) (vocab : gset str) :
  nfd [] = [] →
  length (clean_sentences nfd raw) = length raw
  ∧ length (update_dataset (clean_sentences nfd raw) vocab) = length raw
  ∧ ∀ i, raw !! i = Some [] →
         clean_sentences nfd raw !! i = Some []
         ∧ update_dataset (clean_sentences nfd raw) vocab !! i = Some [].
Proof.
  intros Hnfd. rewrite update_dataset_map, clean_sentences_map.
  rewrite !length_map. split; [done|]. split; [done|].
  intros i Hi.
  assert (clean_line nfd [] = []) as Hc.
  { unfold clean_line. by rewrite Hnfd. }
  fold (fmap (M:=list) (clean_line nfd) raw).
  fold (fmap (M:=list) (update_line vocab) (clean_line nfd <$> raw)).
  rewrite !list_lookup_fmap, Hi. simpl.
  by rewrite Hc.
Qed.

Lemma corpus_line_counts_witness :
  length (clean_sentences nfd_fragment [lit "Tea, please"; []; lit "s 12"]) = 3%nat
  ∧ length (update_dataset
              (clean_sentences nfd_fragment [lit "Tea, please"; []; lit "s 12"])
              {[ lit "tea"; lit "s" ]}) = 3%nat
  ∧ ∀ i, [lit "Tea, please"; []; lit "s 12"] !! i = Some [] →
         clean_sentences nfd_fragment [lit "Tea, please"; []; lit "s 12"] !! i
         = Some []
         ∧ update_dataset
             (clean_sentences nfd_fragment [lit "Tea, please"; []; lit "s 12"])
             {[ lit "tea"; lit "s" ]} !! i = Some [].
Proof.
  apply (corpus_line_counts nfd_fragment [lit "Tea, please"; []; lit "s 12"]
           {[ lit "tea"; lit "s" ]}).
  reflexivity.
Defined.

(** ** Rewriter *)

Lemma substitute_loop (vocab : gset str) (ts acc : list str) :
  foldl (λ new_words t,
           if decide (t ∈ vocab) then new_words ++ [t] else new_words ++ [uup])
        acc ts
  = acc ++ map (λ t, if decide (t ∈ vocab) then t else uup) ts.
Proof.
  revert acc. induction ts as [|t ts IH]; intros acc; simpl.
  - by rewrite app_nil_r.
  - rewrite IH. destruct (decide (t ∈ vocab)); by rewrite <- app_assoc.
Qed.

Lemma drop_s_after_substitution (vocab : gset str) (ts : list str) :
  List.filter (λ word, negb (str_eqb word (lit "s")))
              (map (λ t, if decide (t ∈ vocab) then t else uup) ts)
  = flat_map (rewrite_token vocab) ts.
Proof.
  induction ts as [|t ts IH]; simpl; [done|].
  rewrite IH. unfold rewrite_token.
  destruct (decide (t ∈ vocab)).
  - unfold str_eqb. destruct (decide (t = lit "s")).
    + by rewrite bool_decide_eq_true_2.
    + by rewrite bool_decide_eq_false_2.
  - reflexivity.
Qed.

Lemma update_line_tokens (vocab : gset str) (line : str) :
  update_line vocab line
  = Py.join (lit " ") (flat_map (rewrite_token vocab) (Py.split line)).
Proof.
  unfold update_line. rewrite substitute_loop. simpl.
  by rewrite drop_s_after_substitution.
Qed.

Lemma uup_word : word uup.
Proof. split; [done|]. by repeat constructor. Qed.

Lemma rewrite_token_words (vocab : gset str) (ts : list str) :
  Forall word ts → Forall word (flat_map (rewrite_token vocab) ts).
Proof.
  induction 1 as [|t ts Ht _ IH]; simpl; [done|].
  unfold rewrite_token at 1.
  destruct (decide (t ∈ vocab)); [destruct (decide (t = lit "s"))|]; simpl.
  - done.
  - by constructor.
  - constructor; [apply uup_word | done].
Qed.

Lemma split_update_line (vocab : gset str) (line : str) :
  Py.split (update_line vocab line)
  = flat_map (rewrite_token vocab) (Py.split line).
Proof.
  rewrite update_line_tokens. apply split_join.
  apply rewrite_token_words, split_words.
Qed.

Lemma rewrite_token_sound (vocab : gset str) (ts : list str) :
  Forall (λ tok, (tok ∈ vocab ∨ tok = uup) ∧ tok ≠ lit "s")
         (flat_map (rewrite_token vocab) ts).
Proof.
  induction ts as [|t ts IH]; simpl; [done|].
  unfold rewrite_token at 1.
  destruct (decide (t ∈ vocab)); [destruct (decide (t = lit "s"))|]; simpl.
  - done.
  - constructor; [|done]. split; [by left | done].
  - constructor; [|done]. split; [by right | done].
Qed.

(** C3. Every token of every line that [update_dataset] returns is a
    member of the vocabulary or the placeholder, and none is the word s. *)
Theorem update_dataset_tokens (sentences : list str) (vocab : gset str) :
  Forall (λ line,
            Forall (λ tok, (tok ∈ vocab ∨ tok = uup) ∧ tok ≠ lit "s")
                   (Py.split line))
         (update_dataset sentences vocab).
Proof.
  rewrite update_dataset_map. apply Forall_map, Forall_forall.
  intros line _. rewrite split_update_line. apply rewrite_token_sound.
Qed.

Lemma rewrite_token_without_s (vocab : gset str) (ts : list str) :
  lit "s" ∉ vocab →
  flat_map (rewrite_token vocab) ts
  = map (λ t, if decide (t ∈ vocab) then t else uup) ts.
Proof.
  intros Hs. induction ts as [|t ts IH]; [done|].
  simpl. rewrite IH. unfold rewrite_token.
  destruct (decide (t ∈ vocab)); [|done].
  destruct (decide (t = lit "s")); [|done]. by subst.
Qed.

(** C8. Token by token: a token outside the vocabulary, the word s
    included, becomes the placeholder and stays in the line; a token of
    the vocabulary is kept, unless it is the word s, which is the only
    token deleted ([rewrite_token]).  The tokens of each returned line are
    exactly these, in order; with s taken out of the vocabulary no token
    is deleted, each one is kept or substituted in place. *)
Theorem update_dataset_token_by_token (sentences : list str) (vocab : gset str) :
  update_dataset sentences vocab
  = map (λ line, Py.join (lit " ")
                   (flat_map (rewrite_token vocab) (Py.split line))) sentences
  ∧ map Py.split (update_dataset sentences vocab)
    = map (λ line, flat_map (rewrite_token vocab) (Py.split line)) sentences
  ∧ map Py.split (update_dataset sentences (vocab ∖ {[ lit "s" ]}))
    = map (λ line, map (λ t, if decide (t ∈ vocab ∖ {[ lit "s" ]}) then t else uup)
                       (Py.split line)) sentences.
Proof.
  rewrite !update_dataset_map. split; [|split].
  - apply map_ext. intros line. apply update_line_tokens.
  - rewrite map_map. apply map_ext. intros line. apply split_update_line.
  - rewrite map_map. apply map_ext. intros line.
    rewrite split_update_line. apply rewrite_token_without_s.
    intros Hs. apply elem_of_difference in Hs as [_ Hs].
    apply Hs. by apply elem_of_singleton.
Qed.

Example update_dataset_s_outside_vocabulary :
  update_dataset [lit "s is the s"] {[ lit "the"; lit "is" ]}
  = [lit "uup is the uup"].
Proof. by vm_compute. Qed.

Example update_dataset_s_inside_vocabulary :
  update_dataset [lit "s is the s"] {[ lit "the"; lit "is"; lit "s" ]}
  = [lit "is the"].
Proof. by vm_compute. Qed.

(** C2, as the code has it. With the vocabulary the, is, nice the line
    "the s nice" becomes "the uup nice": s is outside the vocabulary and is
    substituted.  In general, with the and nice in the vocabulary, s is
    deleted exactly when it is a member of the vocabulary. *)
Theorem update_dataset_the_s_nice :
  update_dataset [lit "the s nice"] {[ lit "the"; lit "is"; lit "nice" ]}
  = [lit "the uup nice"]
  ∧ ∀ vocab : gset str,
      update_dataset [lit "the s nice"] ({[ lit "the"; lit "nice" ]} ∪ vocab)
      = [if decide (lit "s" ∈ vocab) then lit "the nice" else lit "the uup nice"].
Proof.
  split; [by vm_compute|]. intros vocab.
  rewrite update_dataset_map. simpl. f_equal.
  rewrite update_line_tokens.
  change (Py.split (lit "the s nice")) with [lit "the"; lit "s"; lit "nice"].
  simpl. unfold rewrite_token.
  assert (lit "the" ≠ lit "s") by done.
  assert (lit "nice" ≠ lit "s") by done.
  assert (lit "the" ∈ ({[ lit "the"; lit "nice" ]} ∪ vocab : gset str)) as Hthe
    by (apply elem_of_union_l, elem_of_union_l; by apply elem_of_singleton).
  assert (lit "nice" ∈ ({[ lit "the"; lit "nice" ]} ∪ vocab : gset str)) as Hnice
    by (apply elem_of_union_l, elem_of_union_r; by apply elem_of_singleton).
  assert (lit "s" ∈ ({[ lit "the"; lit "nice" ]} ∪ vocab : gset str)
          ↔ lit "s" ∈ vocab) as Hs.
  { rewrite !elem_of_union, !elem_of_singleton.
    split; [intros [[Hx|Hx]|Hx]; done | by right]. }
  rewrite (decide_True _ _ Hthe), (decide_True _ _ Hnice).
  rewrite (decide_False (P := lit "the" = lit "s")) by done.
  rewrite (decide_False (P := lit "nice" = lit "s")) by done.
  destruct (decide (lit "s" ∈ vocab)) as [Hin|Hout].
  - rewrite (decide_True (P := lit "s" ∈ _ ∪ vocab)) by by apply Hs.
    by rewrite decide_True.
  - rewrite (decide_False (P := lit "s" ∈ _ ∪ vocab)) by by rewrite Hs.
    reflexivity.
Qed.

(** C2, as the claim has it, fails: the line does not become "the nice". *)
Lemma update_dataset_the_s_nice_not_dropped :
  update_dataset [lit "the s nice"] {[ lit "the"; lit "is"; lit "nice" ]}
  ≠ [lit "the nice"].
Proof. by vm_compute. Qed.

(** ** Vocabulary Builder *)

Lemma counter_update_dom (voc : gmap str Z) (words : list str) :
  dom (counter_update voc words) = dom voc ∪ list_to_set words.
Proof.
  unfold counter_update. revert voc.
  induction words as [|w words IH]; intros voc; simpl.
  - by rewrite union_empty_r_L.
  - rewrite IH, dom_insert_L.
    rewrite (comm_L (∪) {[w]} (dom voc)). by rewrite <- (assoc_L (∪)).
Qed.

Lemma counter_update_positive (voc : gmap str Z) (words : list str) :
  map_Forall (λ _ n, (1 ≤ n)%Z) voc →
  map_Forall (λ _ n, (1 ≤ n)%Z) (counter_update voc words).
Proof.
  unfold counter_update. revert voc.
  induction words as [|w words IH]; intros voc Hvoc; simpl; [done|].
  apply IH. apply map_Forall_insert_2; [|done].
  destruct (voc !! w) as [n|] eqn:Hw; simpl; [|lia].
  specialize (Hvoc w n Hw). simpl in Hvoc. lia.
Qed.

Lemma get_vocabulary_count_from (voc : gmap str Z) (sentences : list str) :
  map_Forall (λ _ n, (1 ≤ n)%Z) voc →
  let voc' := foldl (λ voc sentence, counter_update voc (Py.split sentence))
                    voc sentences in
  dom voc' = dom voc ∪ list_to_set (concat (map Py.split sentences))
  ∧ map_Forall (λ _ n, (1 ≤ n)%Z) voc'.
Proof.
  revert voc. induction sentences as [|s sentences IH]; intros voc Hvoc; simpl.
  - split; [by rewrite union_empty_r_L | done].
  - destruct (IH (counter_update voc (Py.split s))) as [Hd Hp].
    { by apply counter_update_positive. }
    split; [|done]. rewrite Hd, counter_update_dom, list_to_set_app_L.
    by rewrite (assoc_L (∪)).
Qed.

(** C9. The keys of the mapping that [get_vocabulary_count] returns are
    exactly the tokens of the input lines, and every count is at least 1. *)
Theorem get_vocabulary_count_keys (sentences : list str) :
  dom (get_vocabulary_count sentences)
  = list_to_set (concat (map Py.split sentences))
  ∧ map_Forall (λ _ n, (1 ≤ n)%Z) (get_vocabulary_count sentences).
Proof.
  destruct (get_vocabulary_count_from ∅ sentences) as [Hd Hp].
  { apply map_Forall_empty. }
  split; [|done]. unfold get_vocabulary_count. rewrite Hd, dom_empty_L.
  by rewrite union_empty_l_L.
Qed.

Lemma words_at_least_int (items : list (str * Z)) (t : Z) :
  words_at_least items (PyInt t)
  = Ok (map fst (List.filter (λ item, (t <=? snd item)%Z) items)).
Proof.
  induction items as [|[word cnt] items IH]; simpl; [done|].
  rewrite IH. by destruct (t <=? cnt)%Z.
Qed.

Lemma reduce_vocab_int (vocab : gmap str Z) (t : Z) :
  ∃ S : gset str,
    reduce_vocab vocab (PyInt t) = Ok S
    ∧ ∀ w, w ∈ S ↔ ∃ cnt, vocab !! w = Some cnt ∧ (t ≤ cnt)%Z.
Proof.
  unfold reduce_vocab. rewrite words_at_least_int. eexists. split; [done|].
  intros w. rewrite elem_of_list_to_set, list_elem_of_In, in_map_iff. split.
  - intros [[w' cnt] [Hw Hin]]. simpl in Hw. subst w'.
    apply filter_In in Hin as [Hin Ht]. simpl in Ht.
    exists cnt. split; [|lia].
    by apply elem_of_map_to_list, list_elem_of_In.
  - intros [cnt [Hw Ht]]. exists (w, cnt). split; [done|].
    apply filter_In. split; [|simpl; lia].
    by apply list_elem_of_In, elem_of_map_to_list.
Qed.

(** C7. With integer thresholds [t1 ≤ t2], [reduce_vocab] returns for [t2]
    a subset of what it returns for [t1], and what it returns is a subset
    of the keys of the mapping. *)
Theorem reduce_vocab_monotone (vocab : gmap str Z) (t1 t2 : Z) :
  (t1 ≤ t2)%Z →
  ∃ S1 S2 : gset str,
    reduce_vocab vocab (PyInt t1) = Ok S1
    ∧ reduce_vocab vocab (PyInt t2) = Ok S2
    ∧ S2 ⊆ S1 ∧ S1 ⊆ dom vocab ∧ S2 ⊆ dom vocab.
Proof.
  intros Ht.
  destruct (reduce_vocab_int vocab t1) as [S1 [H1 M1]].
  destruct (reduce_vocab_int vocab t2) as [S2 [H2 M2]].
  exists S1, S2. split; [done|]. split; [done|].
  split; [|split]; intros w Hw.
  - apply M2 in Hw as [cnt [Hw Hc]]. apply M1. exists cnt. split; [done|lia].
  - apply M1 in Hw as [cnt [Hw _]]. apply elem_of_dom. by exists cnt.
  - apply M2 in Hw as [cnt [Hw _]]. apply elem_of_dom. by exists cnt.
Qed.

Lemma reduce_vocab_monotone_witness :
  ∃ S1 S2 : gset str,
    reduce_vocab (<[lit "the" := 10%Z]> (<[lit "cafe" := 2%Z]> ∅)) (PyInt 2) = Ok S1
    ∧ reduce_vocab (<[lit "the" := 10%Z]> (<[lit "cafe" := 2%Z]> ∅)) (PyInt 4) = Ok S2
    ∧ S2 ⊆ S1
    ∧ S1 ⊆ dom (<[lit "the" := 10%Z]> (<[lit "cafe" := 2%Z]> (∅ : gmap str Z)))
    ∧ S2 ⊆ dom (<[lit "the" := 10%Z]> (<[lit "cafe" := 2%Z]> (∅ : gmap str Z))).
Proof.
  apply (reduce_vocab_monotone
           (<[lit "the" := 10%Z]> (<[lit "cafe" := 2%Z]> ∅)) 2 4).
  lia.
Defined.

(** ** Cleaner *)

(** A boolean test that holds on a whole range of code points, checked by
    running it on each of them. *)
Lemma check_range (p : N → bool) (lo : N) (n : nat) :
  forallb p (map (λ i, lo + N.of_nat i) (seq 0 n)) = true →
  ∀ c, lo ≤ c → c < lo + N.of_nat n → p c = true.
Proof.
  intros Hall c Hlo Hhi. rewrite forallb_forall in Hall. apply Hall.
  apply in_map_iff. exists (N.to_nat (c - lo)). split; [lia|].
  apply in_seq. lia.
Qed.

Lemma letter_facts_hold c : 97 ≤ c ∧ c ≤ 122 → letter_facts c = true.
Proof.
  intros [Hlo Hhi]. apply (check_range letter_facts 97 26); [|done|lia].
  by vm_compute.
Qed.

Lemma letter_not_space c : 97 ≤ c ∧ c ≤ 122 → Py.isspace c = false.
Proof.
  intros H. apply letter_facts_hold in H. unfold letter_facts in H.
  rewrite !andb_true_iff in H. destruct H as [[[[[H _] _] _] _] _].
  by apply negb_true_iff.
Qed.

Lemma lowercase_word_word w : lowercase_word w → word w.
Proof.
  intros [Hne Hw]. split; [done|].
  eapply Forall_impl; [exact Hw|]. apply letter_not_space.
Qed.

Lemma lower_char_not_upper c : Py.is_upper (Py.lower_char c) = false.
Proof.
  unfold Py.lower_char. destruct (Py.is_upper c) eqn:Hc; [|done].
  unfold Py.is_upper in *. apply andb_true_iff in Hc as [H1 H2].
  apply N.leb_le in H1, H2. apply andb_false_iff. right. apply N.leb_gt. lia.
Qed.

Lemma alpha_not_upper c :
  Py.isalpha_char c = true → Py.is_upper c = false → 97 ≤ c ∧ c ≤ 122.
Proof.
  unfold Py.isalpha_char. intros H Hu. rewrite Hu in H. simpl in H.
  unfold Py.is_lower in H. apply andb_true_iff in H as [H1 H2].
  by apply N.leb_le in H1, H2.
Qed.

Lemma isalpha_lowercase_word w :
  Py.isalpha w = true → Forall (λ c, Py.is_upper c = false) w →
  lowercase_word w.
Proof.
  unfold Py.isalpha. intros H Hu. apply andb_true_iff in H as [Hne Hal].
  split; [by apply nonempty_true|].
  rewrite forallb_forall in Hal. rewrite Forall_forall in Hu |- *.
  intros c Hc. apply alpha_not_upper; [|by apply Hu].
  by apply Hal, list_elem_of_In.
Qed.

Lemma join_Forall (P : N → Prop) (sep : str) (ws : list str) :
  Forall P sep → Forall (Forall P) ws → Forall P (Py.join sep ws).
Proof.
  intros Hsep Hws. induction Hws as [|w ws Hw Hws IH]; simpl; [done|].
  destruct ws as [|w' ws]; [done|].
  apply Forall_app. split; [done|]. apply Forall_app. by split.
Qed.

Lemma map_fixed {A} (f : A → A) (l : list A) :
  Forall (λ x, f x = x) l → map f l = l.
Proof. induction 1 as [|x l Hx _ IH]; simpl; [done|]. by rewrite Hx, IH. Qed.

Section CleanerProofs.

Variable normalize_NFD : str → str.

Lemma clean_line_join line :
  clean_line normalize_NFD line = Py.join (lit " ") (cleaned_words normalize_NFD line).
Proof. reflexivity. Qed.

Lemma cleaned_words_lowercase line :
  Forall lowercase_word (cleaned_words normalize_NFD line).
Proof.
  unfold cleaned_words.
  set (ws := Py.split _). clearbody ws.
  apply Forall_forall. intros w Hw.
  apply list_elem_of_In, filter_In in Hw as [Hw Halpha].
  apply isalpha_lowercase_word; [done|].
  apply in_map_iff in Hw as [w1 [<- Hw]].
  apply in_map_iff in Hw as [w2 [<- Hw]].
  apply in_map_iff in Hw as [w3 [<- Hw]].
  apply Forall_filter_list, Forall_filter_list.
  apply Forall_map, Forall_forall. intros c _. apply lower_char_not_upper.
Qed.

Lemma split_clean_line line :
  Py.split (clean_line normalize_NFD line) = cleaned_words normalize_NFD line.
Proof.
  rewrite clean_line_join. apply split_join.
  eapply Forall_impl; [apply cleaned_words_lowercase|].
  apply lowercase_word_word.
Qed.

(** C5. Every token of every line of the cleaned corpus is a non-empty
    word of the lowercase ASCII letters a to z. *)
Theorem clean_sentences_tokens (lines : list str) :
  Forall (λ line,
            Forall (λ tok, tok ≠ [] ∧ Forall (λ c, 97 ≤ c ∧ c ≤ 122) tok)
                   (Py.split line))
         (clean_sentences normalize_NFD lines).
Proof.
  rewrite clean_sentences_map. apply Forall_map, Forall_forall.
  intros line _. rewrite split_clean_line. apply cleaned_words_lowercase.
Qed.

(** The canonical decomposition leaves ASCII text as it is. *)
Hypothesis NFD_ascii :
  ∀ s, Forall (λ c, c < 128) s → normalize_NFD s = s.

Lemma clean_line_fixed (ws : list str) :
  Forall lowercase_word ws →
  clean_line normalize_NFD (Py.join (lit " ") ws) = Py.join (lit " ") ws.
Proof.
  intros Hws.
  assert (Forall (Forall (λ c, letter_facts c = true)) ws) as Hfacts.
  { eapply Forall_impl; [exact Hws|]. intros w [_ Hw].
    eapply Forall_impl; [exact Hw|]. apply letter_facts_hold. }
  assert (∀ (p : N → bool),
            (∀ c, letter_facts c = true → p c = true) →
            Forall (λ w, List.filter p w = w) ws) as Hkeep.
  { intros p Hp. eapply Forall_impl; [exact Hfacts|]. intros w Hw.
    apply filter_all. eapply Forall_impl; [exact Hw|]. exact Hp. }
  rewrite clean_line_join. unfold cleaned_words. f_equal.
  rewrite NFD_ascii.
  2:{ apply join_Forall; [by repeat constructor|].
      eapply Forall_impl; [exact Hws|]. intros w [_ Hw].
      eapply Forall_impl; [exact Hw|]. simpl. lia. }
  unfold Py.encode_ascii_ignore. rewrite (filter_all Py.is_ascii).
  2:{ apply join_Forall; [by repeat constructor|].
      eapply Forall_impl; [exact Hfacts|]. intros w Hw.
      eapply Forall_impl; [exact Hw|]. intros c Hc. unfold letter_facts in Hc.
      rewrite !andb_true_iff in Hc. by destruct Hc as [[[[[_ ?] _] _] _] _]. }
  rewrite split_join
    by (eapply Forall_impl; [exact Hws | apply lowercase_word_word]).
  rewrite (map_fixed Py.lower).
  2:{ eapply Forall_impl; [exact Hfacts|]. intros w Hw.
      apply map_fixed. eapply Forall_impl; [exact Hw|].
      intros c Hc. unfold letter_facts in Hc.
      rewrite !andb_true_iff in Hc. destruct Hc as [[[[[_ _] Hc] _] _] _].
      by apply N.eqb_eq. }
  rewrite (map_fixed (Py.translate_delete Py.punctuation)).
  2:{ apply Hkeep. intros c Hc. unfold letter_facts in Hc.
      rewrite !andb_true_iff in Hc. by destruct Hc as [[[[[_ _] _] ?] _] _]. }
  rewrite (map_fixed (Py.re_sub_not_in Py.printable)).
  2:{ apply Hkeep. intros c Hc. unfold letter_facts in Hc.
      rewrite !andb_true_iff in Hc. by destruct Hc as [[[[[_ _] _] _] ?] _]. }
  apply filter_all. rewrite Forall_forall in Hws, Hfacts |- *.
  intros w Hw. unfold Py.isalpha. apply andb_true_iff. split.
  - apply nonempty_true. by destruct (Hws w Hw).
  - apply forallb_forall. intros c Hc.
    specialize (Hfacts w Hw). rewrite Forall_forall in Hfacts.
    apply list_elem_of_In, Hfacts in Hc. unfold letter_facts in Hc.
    rewrite !andb_true_iff in Hc. by destruct Hc as [_ ?].
Qed.

(** C6. Cleaning twice is cleaning once, for every corpus. *)
Theorem clean_sentences_idempotent (lines : list str) :
  clean_sentences normalize_NFD (clean_sentences normalize_NFD lines)
  = clean_sentences normalize_NFD lines.
Proof.
  rewrite !clean_sentences_map, map_map. apply map_ext. intros line.
  rewrite clean_line_join. apply clean_line_fixed, cleaned_words_lowercase.
Qed.

End CleanerProofs.

Lemma nfd_fragment_ascii s :
  Forall (λ c, c < 128) s → nfd_fragment s = s.
Proof.
  induction 1 as [|c s Hc _ IH]; [done|].
  unfold nfd_fragment in *. simpl. rewrite IH.
  unfold decompose_fragment.
  repeat match goal with
         | |- context [c =? ?k] => destruct (N.eqb_spec c k) as [Hk|_]; [lia|]
         end.
  reflexivity.
Qed.

Lemma clean_sentences_idempotent_witness :
  clean_sentences nfd_fragment
    (clean_sentences nfd_fragment [lit "Caf" ++ [233] ++ lit " costs 5 dollars!"])
  = clean_sentences nfd_fragment [lit "Caf" ++ [233] ++ lit " costs 5 dollars!"].
Proof.
  apply (clean_sentences_idempotent nfd_fragment nfd_fragment_ascii
           [lit "Caf" ++ [233] ++ lit " costs 5 dollars!"]).
Defined.

(** ** Orchestration *)

Lemma words_at_least_str (items : list (str * Z)) (s : str) :
  items ≠ [] → words_at_least items (PyStr s) = Raise TypeError.
Proof. by destruct items as [|[word cnt] items]. Qed.

Lemma reduce_vocab_str (vocab : gmap str Z) (s : str) :
  vocab ≠ ∅ → reduce_vocab vocab (PyStr s) = Raise TypeError.
Proof.
  intros Hne. unfold reduce_vocab. rewrite words_at_least_str; [done|].
  intros Hnil. by apply map_to_list_empty_iff in Hnil.
Qed.

(** C4, what the code does. A threshold given on the command line reaches
    [reduce_vocab] as a string.  When the input can be read, the cleaned
    artifact can be written and the cleaned corpus has a token, the run
    loads and cleans the corpus and writes the cleaned artifact, and only
    then stops, with a [TypeError] from [reduce_vocab]. *)
Theorem main_string_threshold (nfd : str → str) (w : world) (argv : cli)
    (s raw : str) :
  cli_vocab_reduction_threshold argv = Some s →
  texts w !! default (lit "Input.txt") (cli_input argv) = Some raw →
  default (lit "Output.txt") (cli_output argv) ++ lit ".pkl" ∉ unwritable w →
  get_vocabulary_count
    (clean_sentences nfd (Py.split_lines (Py.strip (Py.universal_newlines raw))))
  ≠ ∅ →
  main nfd argv w
  = (Raise TypeError,
     World (texts w)
           (<[default (lit "Output.txt") (cli_output argv) ++ lit ".pkl" :=
                clean_sentences nfd
                  (Py.split_lines (Py.strip (Py.universal_newlines raw)))]>
              (pickles w))
           (unwritable w)).
Proof.
  intros Hs Hraw Hout Hvoc.
  unfold main, preprocess_file, get_sentences_from_document, read_text,
    pickle_dump, lift, mbind, io_bind, mret, io_ret.
  rewrite Hs, Hraw. cbn [texts pickles unwritable].
  rewrite decide_False by done.
  by rewrite reduce_vocab_str.
Qed.

Lemma main_string_threshold_witness :
  main nfd_fragment (Cli None None (Some (lit "abc")))
       (World {[ lit "Input.txt" := lit "hello world" ]} ∅ ∅)
  = (Raise TypeError,
     World {[ lit "Input.txt" := lit "hello world" ]}
           (<[ lit "Output.txt" ++ lit ".pkl" :=
                 clean_sentences nfd_fragment
                   (Py.split_lines (Py.strip (Py.universal_newlines (lit "hello world"))))]> ∅)
           ∅).
Proof.
  refine (main_string_threshold nfd_fragment
            (World {[ lit "Input.txt" := lit "hello world" ]} ∅ ∅)
            (Cli None None (Some (lit "abc"))) (lit "abc") (lit "hello world")
            eq_refl eq_refl _ _).
  - simpl. apply not_elem_of_empty.
  - by vm_compute.
Defined.

(** On the same input the cleaned artifact holds the cleaned line. *)
Example main_abc_writes_cleaned :
  main nfd_fragment (Cli None None (Some (lit "abc")))
       (World {[ lit "Input.txt" := lit "hello world" ]} ∅ ∅)
  = (Raise TypeError,
     World {[ lit "Input.txt" := lit "hello world" ]}
           {[ lit "Output.txt.pkl" := [lit "hello world"] ]} ∅).
Proof. by vm_compute. Qed.

(** A numeric string is no better: it is never converted. *)
Example main_5_raises :
  fst (main nfd_fragment (Cli None None (Some (lit "5")))
         (World {[ lit "Input.txt" := lit "hello world" ]} ∅ ∅))
  = Raise TypeError.
Proof. by vm_compute. Qed.

(** With no token in the corpus nothing is compared and the run completes. *)
Example main_abc_empty_corpus :
  main nfd_fragment (Cli None None (Some (lit "abc")))
       (World {[ lit "Input.txt" := lit "" ]} ∅ ∅)
  = (Ok tt,
     World {[ lit "Input.txt" := lit "" ]}
           (<[ lit "Output.txt.reduced.pkl" := [lit ""] ]>
              {[ lit "Output.txt.pkl" := [lit ""] ]}) ∅).
Proof. by vm_compute. Qed.

(** The default threshold is the integer 4 and the run completes. *)
Example main_default_threshold :
  main nfd_fragment (Cli None None None)
       (World {[ lit "Input.txt" := lit "a b a a
a s s s s" ]} ∅ ∅)
  = (Ok tt,
     World {[ lit "Input.txt" := lit "a b a a
a s s s s" ]}
           (<[ lit "Output.txt.reduced.pkl" := [lit "a uup a a"; lit "a"] ]>
              {[ lit "Output.txt.pkl" := [lit "a b a a"; lit "a s s s s"] ]}) ∅).
Proof. by vm_compute. Qed.


(** ** Further properties: Vocabulary Builder *)

Lemma occurrences_app (w : str) (l1 l2 : list str) :
  occurrences w (l1 ++ l2) = (occurrences w l1 + occurrences w l2)%nat.
Proof. unfold occurrences. by rewrite List.filter_app, length_app. Qed.

Lemma occurrences_cons (w t : str) (l : list str) :
  occurrences w (t :: l)
  = ((if decide (w = t) then 1 else 0) + occurrences w l)%nat.
Proof.
  unfold occurrences, str_eqb. simpl.
  destruct (decide (w = t)).
  - by rewrite bool_decide_eq_true_2.
  - by rewrite bool_decide_eq_false_2.
Qed.

Lemma occurrences_zero (w : str) (l : list str) :
  occurrences w l = 0%nat ↔ w ∉ l.
Proof.
  induction l as [|t l IH].
  - split; [intros _; apply not_elem_of_nil | done].
  - rewrite occurrences_cons, not_elem_of_cons.
    destruct (decide (w = t)) as [->|Hne]; simpl.
    + split; [done | by intros [? _]].
    + rewrite IH. split; [by intros ? | by intros [_ ?]].
Qed.

Lemma counter_update_count (voc : gmap str Z) (words : list str) (w : str) :
  default 0%Z (counter_update voc words !! w)
  = (default 0 (voc !! w) + Z.of_nat (occurrences w words))%Z.
Proof.
  unfold counter_update. revert voc.
  induction words as [|t words IH]; intros voc; simpl.
  - unfold occurrences. simpl. lia.
  - rewrite IH, occurrences_cons.
    destruct (decide (w = t)) as [->|Hne].
    + rewrite lookup_insert_eq. simpl. lia.
    + rewrite lookup_insert_ne by done. simpl. lia.
Qed.

Lemma vocabulary_count_from (voc : gmap str Z) (sentences : list str) (w : str) :
  default 0%Z
    (foldl (λ voc sentence, counter_update voc (Py.split sentence))
           voc sentences !! w)
  = (default 0 (voc !! w) + Z.of_nat (occurrences w (tokens_of sentences)))%Z.
Proof.
  revert voc. induction sentences as [|s sentences IH]; intros voc; simpl.
  - unfold occurrences. simpl. lia.
  - rewrite IH, counter_update_count. unfold tokens_of. simpl.
    rewrite occurrences_app. lia.
Qed.

Lemma vocabulary_count_lookup (sentences : list str) (w : str) :
  get_vocabulary_count sentences !! w
  = if decide (occurrences w (tokens_of sentences) = 0%nat) then None
    else Some (Z.of_nat (occurrences w (tokens_of sentences))).
Proof.
  pose proof (vocabulary_count_from ∅ sentences w) as Hcount.
  destruct (get_vocabulary_count_from ∅ sentences) as [Hdom _].
  { apply map_Forall_empty. }
  fold (get_vocabulary_count sentences) in Hcount, Hdom.
  rewrite lookup_empty in Hcount. simpl in Hcount.
  rewrite dom_empty_L, (left_id_L ∅ (∪)) in Hdom.
  fold (tokens_of sentences) in Hdom.
  destruct (decide (occurrences w (tokens_of sentences) = 0%nat)) as [Hz|Hnz].
  - apply not_elem_of_dom. rewrite Hdom, elem_of_list_to_set.
    by apply occurrences_zero.
  - destruct (get_vocabulary_count sentences !! w) as [n|] eqn:Hw.
    + simpl in Hcount. f_equal. lia.
    + simpl in Hcount. lia.
Qed.

(** X1. The count that [get_vocabulary_count] stores for a word is the
    number of times the word occurs among the tokens of all the lines; a
    word that does not occur has no entry. *)
Theorem get_vocabulary_count_occurrences (sentences : list str) (w : str) :
  get_vocabulary_count sentences !! w
  = if decide (occurrences w (tokens_of sentences) = 0%nat) then None
    else Some (Z.of_nat (occurrences w (tokens_of sentences))).
Proof. apply vocabulary_count_lookup. Qed.

Lemma occurrences_Permutation (w : str) (l1 l2 : list str) :
  l1 ≡ₚ l2 → occurrences w l1 = occurrences w l2.
Proof.
  induction 1 as [|t l1 l2 _ IH|t1 t2 l|l1 l2 l3 _ IH1 _ IH2].
  - done.
  - by rewrite !occurrences_cons, IH.
  - rewrite !occurrences_cons. lia.
  - by rewrite IH1.
Qed.

Lemma tokens_of_Permutation (l1 l2 : list str) :
  l1 ≡ₚ l2 → tokens_of l1 ≡ₚ tokens_of l2.
Proof.
  intros H. unfold tokens_of.
  induction H as [|s l1 l2 _ IH|s1 s2 l|l1 l2 l3 _ IH1 _ IH2]; simpl.
  - done.
  - by rewrite IH.
  - rewrite !(assoc_L (++)). f_equiv. apply Permutation_app_comm.
  - by rewrite IH1.
Qed.

(** X2. The vocabulary count does not depend on the order of the lines:
    two corpora with the same lines in any order give the same mapping. *)
Theorem get_vocabulary_count_order (l1 l2 : list str) :
  l1 ≡ₚ l2 → get_vocabulary_count l1 = get_vocabulary_count l2.
Proof.
  intros H. apply map_eq. intros w. rewrite !vocabulary_count_lookup.
  by rewrite (occurrences_Permutation w _ _ (tokens_of_Permutation _ _ H)).
Qed.

Lemma get_vocabulary_count_order_witness :
  get_vocabulary_count [lit "a b"; lit "c a"]
  = get_vocabulary_count [lit "c a"; lit "a b"].
Proof.
  apply (get_vocabulary_count_order [lit "a b"; lit "c a"] [lit "c a"; lit "a b"]).
  apply perm_swap.
Defined.

(** X3. With an integer threshold [reduce_vocab] raises nothing and returns
    exactly the keys whose count is at least the threshold; the bound is
    inclusive. *)
Theorem reduce_vocab_at_least (vocab : gmap str Z) (t : Z) :
  ∃ S : gset str,
    reduce_vocab vocab (PyInt t) = Ok S
    ∧ ∀ w, w ∈ S ↔ ∃ cnt, vocab !! w = Some cnt ∧ (t ≤ cnt)%Z.
Proof. apply reduce_vocab_int. Qed.

(** X4. With a string threshold [reduce_vocab] raises [TypeError] as soon
    as the mapping has an entry to compare; on the empty mapping nothing is
    compared and the empty set is returned. *)
Theorem reduce_vocab_string_threshold (vocab : gmap str Z) (s : str) :
  reduce_vocab vocab (PyStr s)
  = if decide (vocab = ∅) then Ok ∅ else Raise TypeError.
Proof.
  destruct (decide (vocab = ∅)) as [->|Hne].
  - unfold reduce_vocab. by rewrite map_to_list_empty.
  - by apply reduce_vocab_str.
Qed.

Lemma vocabulary_count_positive (sentences : list str) :
  map_Forall (λ _ n, (1 ≤ n)%Z) (get_vocabulary_count sentences).
Proof.
  destruct (get_vocabulary_count_from ∅ sentences) as [_ Hp]; [|done].
  apply map_Forall_empty.
Qed.

Lemma update_line_known_tokens (vocab : gset str) (line : str) :
  Forall (λ t, t ∈ vocab) (Py.split line) →
  Py.split (update_line vocab line)
  = List.filter (λ word, negb (str_eqb word (lit "s"))) (Py.split line).
Proof.
  intros Hin. rewrite split_update_line, <- drop_s_after_substitution.
  f_equal. rewrite <- (map_id (Py.split line)) at 2.
  apply map_ext_Forall. eapply Forall_impl; [exact Hin|].
  intros t Ht. by rewrite decide_True.
Qed.

(** X5. A threshold of at most 1 keeps the whole vocabulary: on the mapping
    built from a corpus, [reduce_vocab] returns every token of the corpus,
    and [update_dataset] with that set introduces no placeholder; the
    tokens of each line are kept in order, the word s apart. *)
Theorem threshold_at_most_one (sentences : list str) (t : Z) :
  (t ≤ 1)%Z →
  ∃ S : gset str,
    reduce_vocab (get_vocabulary_count sentences) (PyInt t) = Ok S
    ∧ S = list_to_set (tokens_of sentences)
    ∧ map Py.split (update_dataset sentences S)
      = map (λ line, List.filter (λ word, negb (str_eqb word (lit "s")))
                                 (Py.split line)) sentences.
Proof.
  intros Ht.
  destruct (reduce_vocab_int (get_vocabulary_count sentences) t) as [S [HS HM]].
  assert (S = list_to_set (tokens_of sentences)) as HSeq.
  { apply set_eq. intros w. rewrite HM, elem_of_list_to_set.
    rewrite vocabulary_count_lookup.
    destruct (decide (occurrences w (tokens_of sentences) = 0%nat)) as [Hz|Hnz].
    - apply occurrences_zero in Hz. split; [by intros [? [? _]] | done].
    - split.
      + intros _. destruct (decide (w ∈ tokens_of sentences)) as [|Hn]; [done|].
        by apply occurrences_zero in Hn.
      + intros _. eexists. split; [done|]. lia. }
  exists S. split; [done|]. split; [done|].
  rewrite update_dataset_map, map_map. apply map_ext_in.
  intros line Hline. apply update_line_known_tokens.
  apply Forall_forall. intros tok Htok. rewrite HSeq, elem_of_list_to_set.
  unfold tokens_of. apply list_elem_of_In, in_concat. exists (Py.split line).
  split; [by apply in_map | by apply list_elem_of_In].
Qed.

Lemma threshold_at_most_one_witness :
  ∃ S : gset str,
    reduce_vocab (get_vocabulary_count [lit "a s b"; lit "b"]) (PyInt 1) = Ok S
    ∧ S = list_to_set (tokens_of [lit "a s b"; lit "b"])
    ∧ map Py.split (update_dataset [lit "a s b"; lit "b"] S)
      = map (λ line, List.filter (λ word, negb (str_eqb word (lit "s")))
                                 (Py.split line)) [lit "a s b"; lit "b"].
Proof.
  apply (threshold_at_most_one [lit "a s b"; lit "b"] 1). lia.
Defined.

(** ** Further properties: Rewriter *)

Lemma rewrite_token_settled (vocab : gset str) (ts : list str) :
  Forall (λ tok, (tok ∈ vocab ∨ tok = uup) ∧ tok ≠ lit "s") ts →
  flat_map (rewrite_token vocab) ts = ts.
Proof.
  induction 1 as [|t ts [Hin Hs] _ IH]; [done|].
  simpl. rewrite IH. unfold rewrite_token.
  destruct (decide (t ∈ vocab)).
  - by rewrite decide_False.
  - destruct Hin as [Hin|Hin]; [done | by subst].
Qed.

(** X6. Rewriting is idempotent: rewriting a rewritten corpus with the same
    vocabulary changes nothing, whatever the vocabulary. *)
Theorem update_dataset_idempotent (sentences : list str) (vocab : gset str) :
  update_dataset (update_dataset sentences vocab) vocab
  = update_dataset sentences vocab.
Proof.
  rewrite !update_dataset_map, map_map. apply map_ext. intros line.
  rewrite (update_line_tokens vocab (update_line vocab line)).
  rewrite split_update_line, rewrite_token_settled.
  - by rewrite update_line_tokens.
  - apply rewrite_token_sound.
Qed.

Lemma rewrite_token_count (vocab : gset str) (ts : list str) :
  (length (flat_map (rewrite_token vocab) ts)
   + (if decide (lit "s" ∈ vocab) then occurrences (lit "s") ts else 0))%nat
  = length ts.
Proof.
  induction ts as [|t ts IH]; simpl.
  - by destruct (decide (lit "s" ∈ vocab)).
  - rewrite length_app, occurrences_cons. unfold rewrite_token at 1.
    destruct (decide (lit "s" ∈ vocab)) as [Hs|Hs];
      destruct (decide (t ∈ vocab)) as [Hin|Hout];
      destruct (decide (t = lit "s")) as [Heq|Hne];
      destruct (decide (lit "s" = t)) as [Heq'|Hne'];
      simpl; try lia; subst; congruence.
Qed.

(** X7. Rewriting never adds a token: a line keeps its number of tokens,
    less the occurrences of the word s when s is in the vocabulary. *)
Theorem update_dataset_token_count (sentences : list str) (vocab : gset str) :
  map (λ line, length (Py.split line)) (update_dataset sentences vocab)
  = map (λ line,
           (length (Py.split line)
            - (if decide (lit "s" ∈ vocab)
               then occurrences (lit "s") (Py.split line) else 0))%nat)
        sentences.
Proof.
  rewrite update_dataset_map, map_map. apply map_ext. intros line.
  rewrite split_update_line.
  pose proof (rewrite_token_count vocab (Py.split line)). lia.
Qed.

(** X8. With the empty vocabulary every token becomes the placeholder and
    none is deleted. *)
Theorem update_dataset_empty_vocabulary (sentences : list str) :
  map Py.split (update_dataset sentences ∅)
  = map (λ line, replicate (length (Py.split line)) uup) sentences.
Proof.
  rewrite update_dataset_map, map_map. apply map_ext. intros line.
  rewrite split_update_line.
  induction (Py.split line) as [|t ts IH]; [done|].
  simpl. rewrite IH. unfold rewrite_token. by rewrite decide_False.
Qed.

(** X9. Every line that [update_dataset] returns is its own tokens joined
    by single spaces: no leading, trailing or repeated whitespace is left,
    whatever the spacing of the input line. *)
Theorem update_dataset_single_spaces (sentences : list str) (vocab : gset str) :
  Forall (λ line, line = Py.join (lit " ") (Py.split line))
         (update_dataset sentences vocab).
Proof.
  rewrite update_dataset_map. apply Forall_map, Forall_forall.
  intros line _. rewrite split_update_line. apply update_line_tokens.
Qed.

(** ** Further properties: Cleaner *)

Lemma letter_or_space_join (ws : list str) :
  Forall lowercase_word ws →
  Forall (λ c, c = 32 ∨ (97 ≤ c ∧ c ≤ 122)) (Py.join (lit " ") ws).
Proof.
  intros Hws. apply join_Forall.
  - repeat constructor.
  - eapply Forall_impl; [exact Hws|]. intros w [_ Hw].
    eapply Forall_impl; [exact Hw|]. intros c Hc. by right.
Qed.

(** X10. Every cleaned line is its own tokens joined by single spaces, and
    holds nothing but the letters a to z and the space: no leading,
    trailing or repeated whitespace, no tab, digit or punctuation is left. *)
Theorem clean_sentences_shape (nfd : str → str) (lines : list str) :
  Forall (λ line,
            line = Py.join (lit " ") (Py.split line)
            ∧ Forall (λ c, c = 32 ∨ (97 ≤ c ∧ c ≤ 122)) line)
         (clean_sentences nfd lines).
Proof.
  rewrite clean_sentences_map. apply Forall_map, Forall_forall.
  intros line _. rewrite split_clean_line. split.
  - apply clean_line_join.
  - rewrite clean_line_join. apply letter_or_space_join, cleaned_words_lowercase.
Qed.

Lemma split_on_map (sep : N → bool) (f : N → N) (s : str) :
  (∀ c, sep (f c) = sep c) →
  Py.split_on sep (map f s) = map (map f) (Py.split_on sep s).
Proof.
  intros Hf. induction s as [|c s IH]; simpl; [done|].
  rewrite Hf, IH. destruct (sep c); [done|].
  by destruct (Py.split_on sep s).
Qed.

Lemma lower_char_space c : Py.isspace (Py.lower_char c) = Py.isspace c.
Proof.
  unfold Py.lower_char. destruct (Py.is_upper c) eqn:Hu; [|done].
  unfold Py.is_upper in Hu. apply andb_true_iff in Hu as [H1 H2].
  apply N.leb_le in H1, H2.
  rewrite (letter_not_space (c + 32)) by lia.
  symmetry. apply (check_range (λ c, negb (Py.isspace c)) 65 26) in H1.
  - by apply negb_true_iff.
  - by vm_compute.
  - lia.
Qed.

Lemma lower_char_idempotent c :
  Py.lower_char (Py.lower_char c) = Py.lower_char c.
Proof.
  unfold Py.lower_char at 1. by rewrite lower_char_not_upper.
Qed.

Lemma split_lower (s : str) :
  Py.split (Py.lower s) = map Py.lower (Py.split s).
Proof.
  unfold Py.split, Py.lower. rewrite split_on_map by apply lower_char_space.
  induction (Py.split_on Py.isspace s) as [|w ws IH]; simpl; [done|].
  rewrite IH. by destruct w.
Qed.

(** X11. Cleaning does not see the case of ASCII letters: a line of ASCII
    text and its lowercased form clean to the same line (the canonical
    decomposition leaving ASCII text as it is). *)
Theorem clean_sentences_ignores_case (nfd : str → str) (lines : list str) :
  (∀ s, Forall (λ c, c < 128) s → nfd s = s) →
  Forall (Forall (λ c, c < 128)) lines →
  clean_sentences nfd (map Py.lower lines) = clean_sentences nfd lines.
Proof.
  intros Hnfd Hascii. rewrite !clean_sentences_map, map_map.
  apply map_ext_Forall. eapply Forall_impl; [exact Hascii|].
  intros line Hline. rewrite !clean_line_join. f_equal. unfold cleaned_words.
  assert (Forall (λ c, c < 128) (Py.lower line)) as Hlow.
  { apply Forall_map. eapply Forall_impl; [exact Hline|]. intros c Hc. simpl.
    unfold Py.lower_char. destruct (Py.is_upper c) eqn:Hu; [|done].
    unfold Py.is_upper in Hu. apply andb_true_iff in Hu as [_ H2].
    apply N.leb_le in H2. lia. }
  rewrite !Hnfd by done.
  assert (∀ l, Forall (λ c, c < 128) l → Py.encode_ascii_ignore l = l) as Henc.
  { intros l Hl. apply filter_all. eapply Forall_impl; [exact Hl|].
    intros c Hc. by apply N.ltb_lt. }
  rewrite !Henc by done. rewrite split_lower.
  assert (∀ ws, map Py.lower (map Py.lower ws) = map Py.lower ws) as Hidem.
  { intros ws. rewrite map_map. apply map_ext. intros w. unfold Py.lower.
    rewrite map_map. apply map_ext. intros c. apply lower_char_idempotent. }
  by rewrite Hidem.
Qed.

Lemma clean_sentences_ignores_case_witness :
  clean_sentences nfd_fragment (map Py.lower [lit "Hello World"; lit "TEA, Please"])
  = clean_sentences nfd_fragment [lit "Hello World"; lit "TEA, Please"].
Proof.
  apply (clean_sentences_ignores_case nfd_fragment
           [lit "Hello World"; lit "TEA, Please"] nfd_fragment_ascii).
  repeat constructor.
Defined.

(** ** Further properties: Loader *)

Lemma join_split_on (c : N) (s : str) :
  Py.join [c] (Py.split_on (N.eqb c) s) = s.
Proof.
  induction s as [|d s IH]; simpl; [done|].
  pose proof (split_on_not_nil (N.eqb c) s) as Hne.
  destruct (Py.split_on (N.eqb c) s) as [|w ws]; [done|].
  destruct (N.eqb_spec c d) as [->|_].
  - change (Py.join [d] ([] :: w :: ws)) with (d :: Py.join [d] (w :: ws)).
    by rewrite IH.
  - destruct ws as [|w' ws].
    + simpl in *. by rewrite IH.
    + change (Py.join [c] ((d :: w) :: w' :: ws))
        with (d :: Py.join [c] (w :: w' :: ws)).
      by rewrite IH.
Qed.

Lemma split_on_Forall (P : N → Prop) (sep : N → bool) (s : str) :
  Forall P s → Forall (Forall P) (Py.split_on sep s).
Proof.
  induction 1 as [|c s Hc _ IH]; simpl.
  - by repeat constructor.
  - destruct (sep c).
    + by constructor.
    + destruct (Py.split_on sep s) as [|w ws].
      * by repeat constructor.
      * inversion IH; subst. constructor; [by constructor | done].
Qed.

Lemma lstrip_Forall (P : N → Prop) (s : str) :
  Forall P s → Forall P (Py.lstrip s).
Proof.
  induction 1 as [|c s Hc Hs IH]; simpl; [done|].
  destruct (Py.isspace c); [done | by constructor].
Qed.

Lemma strip_Forall (P : N → Prop) (s : str) :
  Forall P s → Forall P (Py.strip s).
Proof.
  intros H. unfold Py.strip, Py.rstrip.
  apply Forall_reverse, lstrip_Forall, Forall_reverse, lstrip_Forall, H.
Qed.

Lemma universal_newlines_no_cr (s : str) :
  Forall (λ c, c ≠ 13) (Py.universal_newlines s).
Proof.
  assert (∀ s, Forall (λ c, c ≠ 13) (Py.universal_newlines s)
               ∧ ∀ c, Forall (λ c, c ≠ 13) (Py.universal_newlines (c :: s)))
    as H.
  { clear s. induction s as [|d s [IH1 IH2]].
    - split; [done|]. intros c. simpl.
      destruct (N.eqb_spec c 13); by repeat constructor.
    - split; [apply IH2|]. intros c. cbn [Py.universal_newlines].
      destruct (N.eqb_spec c 13).
      + constructor; [done|]. destruct (d =? 10); [done | apply IH2].
      + constructor; [done | apply IH2]. }
  apply H.
Qed.

(** X12. The sentences that the Loader returns hold no line feed and no
    carriage return, and joined by line feeds they give back the text of
    the file, stripped and with its line ends read as line feeds: no line
    is lost, added or reordered. *)
Theorem get_sentences_from_document_lines (w : world) (filename raw : str) :
  texts w !! filename = Some raw →
  ∃ sentences,
    get_sentences_from_document filename w = (Ok sentences, w)
    ∧ Py.join [10] sentences = Py.strip (Py.universal_newlines raw)
    ∧ Forall (Forall (λ c, c ≠ 10 ∧ c ≠ 13)) sentences.
Proof.
  intros Hraw.
  exists (Py.split_lines (Py.strip (Py.universal_newlines raw))).
  split; [|split].
  - unfold get_sentences_from_document, mbind, io_bind, read_text.
    by rewrite Hraw.
  - apply join_split_on.
  - unfold Py.split_lines.
    pose proof (split_on_fields (N.eqb 10)
                  (Py.strip (Py.universal_newlines raw))) as Hlf.
    pose proof (split_on_Forall (λ c, c ≠ 13) (N.eqb 10) _
                  (strip_Forall _ _ (universal_newlines_no_cr raw))) as Hcr.
    revert Hlf Hcr. generalize (Py.split_on (N.eqb 10)
                                  (Py.strip (Py.universal_newlines raw))).
    intros l Hlf. induction Hlf as [|x l Hx _ IH]; intros Hcr; [done|].
    inversion Hcr as [|? ? Hx' Hl']; subst. constructor; [|by apply IH].
    clear IH Hcr Hl'. induction Hx as [|c x Hc _ IH]; [done|].
    inversion Hx'; subst. constructor; [|by apply IH].
    split; [|done]. intros ->. done.
Qed.

Lemma get_sentences_from_document_lines_witness :
  ∃ sentences,
    get_sentences_from_document (lit "Input.txt")
      (World {[ lit "Input.txt" := [32; 97; 13; 10; 98; 13; 99; 10] ]} ∅ ∅)
    = (Ok sentences,
       World {[ lit "Input.txt" := [32; 97; 13; 10; 98; 13; 99; 10] ]} ∅ ∅)
    ∧ Py.join [10] sentences
      = Py.strip (Py.universal_newlines [32; 97; 13; 10; 98; 13; 99; 10])
    ∧ Forall (Forall (λ c, c ≠ 10 ∧ c ≠ 13)) sentences.
Proof.
  apply (get_sentences_from_document_lines
           (World {[ lit "Input.txt" := [32; 97; 13; 10; 98; 13; 99; 10] ]} ∅ ∅)
           (lit "Input.txt") [32; 97; 13; 10; 98; 13; 99; 10]).
  reflexivity.
Defined.

Lemma lstrip_head (s : str) :
  Py.lstrip s = [] ∨ ∃ c s', Py.lstrip s = c :: s' ∧ Py.isspace c = false.
Proof.
  induction s as [|c s IH]; simpl; [by left|].
  destruct (Py.isspace c) eqn:Hc; [done|]. right. by exists c, s.
Qed.

Lemma lstrip_keeps_last (s : str) (d : N) :
  Py.isspace d = false → ∃ s', Py.lstrip (s ++ [d]) = s' ++ [d].
Proof.
  intros Hd. induction s as [|c s IH]; simpl.
  - rewrite Hd. by exists [].
  - destruct (Py.isspace c); [done|]. by exists (c :: s).
Qed.

Lemma strip_ends (s : str) :
  Py.strip s = []
  ∨ ∃ c d s1 s2, Py.strip s = c :: s1 ∧ Py.strip s = s2 ++ [d]
                 ∧ Py.isspace c = false ∧ Py.isspace d = false.
Proof.
  unfold Py.strip, Py.rstrip.
  destruct (lstrip_head s) as [->|[c [s' [-> Hc]]]]; [by left|]. right.
  rewrite reverse_cons.
  destruct (lstrip_keeps_last (reverse s') c Hc) as [t Ht].
  destruct (lstrip_head (reverse s' ++ [c])) as [Hnil|[d [t' [Hd Hsp]]]].
  { rewrite Hnil in Ht. by destruct t. }
  exists c, d, (reverse t), (reverse t'). split; [|split; [|done]].
  - by rewrite Ht, reverse_app.
  - by rewrite Hd, reverse_cons.
Qed.

Lemma split_on_last (sep : N → bool) (s : str) (d : N) :
  sep d = false →
  ∃ ws w, Py.split_on sep (s ++ [d]) = ws ++ [w ++ [d]].
Proof.
  intros Hd. induction s as [|c s [ws [w IH]]]; simpl.
  - rewrite Hd. by exists [], [].
  - rewrite IH. destruct (sep c).
    + by exists ([] :: ws), w.
    + destruct ws as [|w0 ws]; simpl.
      * by exists [], (c :: w).
      * by exists ((c :: w0) :: ws), w.
Qed.

(** X13. The Loader returns no blank sentence at either end: unless the
    result is the single empty sentence of a blank file, its first and its
    last sentence are not empty. *)
Theorem get_sentences_from_document_ends (w : world) (filename raw : str) :
  texts w !! filename = Some raw →
  ∃ sentences,
    get_sentences_from_document filename w = (Ok sentences, w)
    ∧ (sentences = [lit ""]
       ∨ ∃ first final,
           head sentences = Some first ∧ first ≠ []
           ∧ last sentences = Some final ∧ final ≠ []).
Proof.
  intros Hraw.
  exists (Py.split_lines (Py.strip (Py.universal_newlines raw))).
  split.
  { unfold get_sentences_from_document, mbind, io_bind, read_text.
    by rewrite Hraw. }
  destruct (strip_ends (Py.universal_newlines raw))
    as [->|[c [d [s1 [s2 [H1 [H2 [Hc Hd]]]]]]]]; [by left|].
  right. unfold Py.split_lines.
  assert ((10 =? c) = false) as Hc10.
  { destruct (N.eqb_spec 10 c) as [<-|]; done. }
  assert ((10 =? d) = false) as Hd10.
  { destruct (N.eqb_spec 10 d) as [<-|]; done. }
  destruct (split_on_last (N.eqb 10) s2 d Hd10) as [ws [x Hlast]].
  rewrite <- H2 in Hlast.
  assert (∃ y ys, Py.split_on (N.eqb 10) (Py.strip (Py.universal_newlines raw))
                  = (c :: y) :: ys) as [y [ys Hfirst]].
  { rewrite H1. cbn [Py.split_on]. rewrite Hc10.
    destruct (Py.split_on (N.eqb 10) s1) as [|y ys]; by eexists _, _. }
  exists (c :: y), (x ++ [d]). split; [|split; [|split]].
  - by rewrite Hfirst.
  - done.
  - rewrite Hlast. apply last_snoc.
  - by destruct x.
Qed.

Lemma get_sentences_from_document_ends_witness :
  ∃ sentences,
    get_sentences_from_document (lit "Input.txt")
      (World {[ lit "Input.txt" := [10; 10; 97; 10; 10; 98; 10; 32] ]} ∅ ∅)
    = (Ok sentences,
       World {[ lit "Input.txt" := [10; 10; 97; 10; 10; 98; 10; 32] ]} ∅ ∅)
    ∧ (sentences = [lit ""]
       ∨ ∃ first final,
           head sentences = Some first ∧ first ≠ []
           ∧ last sentences = Some final ∧ final ≠ []).
Proof.
  apply (get_sentences_from_document_ends
           (World {[ lit "Input.txt" := [10; 10; 97; 10; 10; 98; 10; 32] ]} ∅ ∅)
           (lit "Input.txt") [10; 10; 97; 10; 10; 98; 10; 32]).
  reflexivity.
Defined.

(** ** Further properties: the whole pipeline *)

Lemma uup_lowercase : lowercase_word uup.
Proof. split; [done|]. repeat constructor; by vm_compute. Qed.

Lemma cleaned_tokens_lowercase (nfd : str → str) (raw : list str) :
  Forall lowercase_word (tokens_of (clean_sentences nfd raw)).
Proof.
  unfold tokens_of. rewrite clean_sentences_map.
  induction raw as [|line raw IH]; simpl; [done|].
  apply Forall_app. split; [|done].
  rewrite split_clean_line. apply cleaned_words_lowercase.
Qed.

(** X14. What the pipeline computes for an integer threshold: the reduced
    vocabulary is obtained without error, and every token of the reduced
    corpus is a word of the letters a to z that is the placeholder or
    occurs at least the threshold number of times in the cleaned corpus. *)
Theorem reduced_corpus_tokens (nfd : str → str) (raw : list str) (t : Z) :
  ∃ S : gset str,
    reduce_vocab (get_vocabulary_count (clean_sentences nfd raw)) (PyInt t) = Ok S
    ∧ Forall (λ line,
                Forall (λ tok,
                          lowercase_word tok
                          ∧ (tok = uup
                             ∨ (t ≤ Z.of_nat
                                      (occurrences tok
                                         (tokens_of (clean_sentences nfd raw))))%Z))
                       (Py.split line))
             (update_dataset (clean_sentences nfd raw) S).
Proof.
  destruct (reduce_vocab_int
              (get_vocabulary_count (clean_sentences nfd raw)) t) as [S [HS HM]].
  exists S. split; [done|].
  rewrite update_dataset_map. apply Forall_map, Forall_forall.
  intros line _. rewrite split_update_line.
  eapply Forall_impl; [apply rewrite_token_sound|].
  intros tok [[Hin|Heq] _]; [|subst; split; [apply uup_lowercase | by left]].
  apply HM in Hin as [cnt [Hcnt Ht]].
  rewrite vocabulary_count_lookup in Hcnt.
  destruct (decide (occurrences tok (tokens_of (clean_sentences nfd raw)) = 0%nat))
    as [|Hnz]; [done|].
  injection Hcnt as <-. split; [|by right].
  pose proof (cleaned_tokens_lowercase nfd raw) as Hlow.
  rewrite Forall_forall in Hlow. apply Hlow.
  destruct (decide (tok ∈ tokens_of (clean_sentences nfd raw))) as [|Hn]; [done|].
  by apply occurrences_zero in Hn.
Qed.

(** X15. When the input file is missing [preprocess_file] raises
    [FileNotFoundError] before anything is written: the files are left as
    they were, whatever the threshold. *)
Theorem preprocess_file_missing_input (nfd : str → str) (w : world)
    (input_filename output_filename : str) (threshold : pyval) :
  texts w !! input_filename = None →
  preprocess_file nfd input_filename output_filename threshold w
  = (Raise FileNotFoundError, w).
Proof.
  intros Hraw.
  unfold preprocess_file, get_sentences_from_document, read_text, mbind, io_bind.
  by rewrite Hraw.
Qed.

Lemma preprocess_file_missing_input_witness :
  preprocess_file nfd_fragment (lit "Input.txt") (lit "Output.txt") (PyInt 4)
    (World ∅ {[ lit "Output.txt.pkl" := [lit "old"] ]} ∅)
  = (Raise FileNotFoundError,
     World ∅ {[ lit "Output.txt.pkl" := [lit "old"] ]} ∅).
Proof.
  apply (preprocess_file_missing_input nfd_fragment
           (World ∅ {[ lit "Output.txt.pkl" := [lit "old"] ]} ∅)
           (lit "Input.txt") (lit "Output.txt") (PyInt 4)).
  reflexivity.
Defined.

Lemma artifact_paths_differ (output_filename : str) :
  output_filename ++ lit ".pkl" ≠ output_filename ++ lit ".reduced.pkl".
Proof. intros H. by apply app_inv_head in H. Qed.

(** X16. With an integer threshold, a readable input and both output paths
    writable, [preprocess_file] returns normally and leaves exactly two new
    artifacts: the cleaned corpus at the stem with [.pkl] and the reduced
    corpus at the stem with [.reduced.pkl]; artifacts already there are
    overwritten and every other file is left as it was. *)
Theorem preprocess_file_artifacts (nfd : str → str) (w : world)
    (input_filename output_filename raw : str) (t : Z) :
  texts w !! input_filename = Some raw →
  output_filename ++ lit ".pkl" ∉ unwritable w →
  output_filename ++ lit ".reduced.pkl" ∉ unwritable w →
  ∃ (S : gset str) (w' : world),
    let cleaned :=
      clean_sentences nfd
        (Py.split_lines (Py.strip (Py.universal_newlines raw))) in
    reduce_vocab (get_vocabulary_count cleaned) (PyInt t) = Ok S
    ∧ preprocess_file nfd input_filename output_filename (PyInt t) w = (Ok tt, w')
    ∧ texts w' = texts w ∧ unwritable w' = unwritable w
    ∧ pickles w' !! (output_filename ++ lit ".pkl") = Some cleaned
    ∧ pickles w' !! (output_filename ++ lit ".reduced.pkl")
      = Some (update_dataset cleaned S)
    ∧ ∀ path, path ≠ output_filename ++ lit ".pkl" →
              path ≠ output_filename ++ lit ".reduced.pkl" →
              pickles w' !! path = pickles w !! path.
Proof.
  intros Hraw Hout1 Hout2.
  destruct (reduce_vocab_int
              (get_vocabulary_count
                 (clean_sentences nfd
                    (Py.split_lines (Py.strip (Py.universal_newlines raw))))) t)
    as [S [HS _]].
  exists S. eexists. cbv zeta. split; [exact HS|]. split.
  { unfold preprocess_file, get_sentences_from_document, read_text,
      pickle_dump, lift, mbind, io_bind, mret, io_ret.
    rewrite Hraw. cbn [texts pickles unwritable].
    rewrite decide_False by done. rewrite HS.
    cbn [texts pickles unwritable]. rewrite decide_False by done.
    reflexivity. }
  cbn [texts pickles unwritable].
  split; [done|]. split; [done|]. split; [|split].
  - rewrite lookup_insert_ne by (symmetry; apply artifact_paths_differ).
    apply lookup_insert_eq.
  - apply lookup_insert_eq.
  - intros path H1 H2. by rewrite !lookup_insert_ne.
Qed.

Lemma preprocess_file_artifacts_witness :
  ∃ (S : gset str) (w' : world),
    let cleaned :=
      clean_sentences nfd_fragment
        (Py.split_lines (Py.strip (Py.universal_newlines (lit "a b a")))) in
    reduce_vocab (get_vocabulary_count cleaned) (PyInt 2) = Ok S
    ∧ preprocess_file nfd_fragment (lit "Input.txt") (lit "Output.txt") (PyInt 2)
        (World {[ lit "Input.txt" := lit "a b a" ]}
               {[ lit "Output.txt.pkl" := [lit "old"] ]} ∅)
      = (Ok tt, w')
    ∧ texts w' = {[ lit "Input.txt" := lit "a b a" ]} ∧ unwritable w' = ∅
    ∧ pickles w' !! (lit "Output.txt" ++ lit ".pkl") = Some cleaned
    ∧ pickles w' !! (lit "Output.txt" ++ lit ".reduced.pkl")
      = Some (update_dataset cleaned S)
    ∧ ∀ path, path ≠ lit "Output.txt" ++ lit ".pkl" →
              path ≠ lit "Output.txt" ++ lit ".reduced.pkl" →
              pickles w' !! path
              = ({[ lit "Output.txt.pkl" := [lit "old"] ]} : gmap str (list str))
                  !! path.
Proof.
  refine (preprocess_file_artifacts nfd_fragment
            (World {[ lit "Input.txt" := lit "a b a" ]}
                   {[ lit "Output.txt.pkl" := [lit "old"] ]} ∅)
            (lit "Input.txt") (lit "Output.txt") (lit "a b a") 2 eq_refl _ _);
    simpl; apply not_elem_of_empty.
Defined.

(** X17. The cleaned artifact is written before the vocabulary is built:
    when only the path of the reduced artifact cannot be opened for
    writing, the run stops with an error and the cleaned artifact is left
    behind, complete. *)
Theorem preprocess_file_partial_output (nfd : str → str) (w : world)
    (input_filename output_filename raw : str) (t : Z) :
  texts w !! input_filename = Some raw →
  output_filename ++ lit ".pkl" ∉ unwritable w →
  output_filename ++ lit ".reduced.pkl" ∈ unwritable w →
  ∃ e,
    preprocess_file nfd input_filename output_filename (PyInt t) w
    = (Raise e,
       World (texts w)
             (<[output_filename ++ lit ".pkl" :=
                  clean_sentences nfd
                    (Py.split_lines (Py.strip (Py.universal_newlines raw)))]>
                (pickles w))
             (unwritable w)).
Proof.
  intros Hraw Hout1 Hout2.
  destruct (reduce_vocab_int
              (get_vocabulary_count
                 (clean_sentences nfd
                    (Py.split_lines (Py.strip (Py.universal_newlines raw))))) t)
    as [S [HS _]].
  exists PermissionError.
  unfold preprocess_file, get_sentences_from_document, read_text,
    pickle_dump, lift, mbind, io_bind, mret, io_ret.
  rewrite Hraw. cbn [texts pickles unwritable].
  rewrite decide_False by done. rewrite HS.
  cbn [texts pickles unwritable]. by rewrite decide_True.
Qed.

Lemma preprocess_file_partial_output_witness :
  ∃ e,
    preprocess_file nfd_fragment (lit "Input.txt") (lit "Output.txt") (PyInt 4)
      (World {[ lit "Input.txt" := lit "a b a" ]} ∅
             {[ lit "Output.txt.reduced.pkl" ]})
    = (Raise e,
       World {[ lit "Input.txt" := lit "a b a" ]}
             (<[lit "Output.txt" ++ lit ".pkl" :=
                  clean_sentences nfd_fragment
                    (Py.split_lines
                       (Py.strip (Py.universal_newlines (lit "a b a"))))]> ∅)
             {[ lit "Output.txt.reduced.pkl" ]}).
Proof.
  refine (preprocess_file_partial_output nfd_fragment
            (World {[ lit "Input.txt" := lit "a b a" ]} ∅
                   {[ lit "Output.txt.reduced.pkl" ]})
            (lit "Input.txt") (lit "Output.txt") (lit "a b a") 4 eq_refl _ _).
  - simpl. intros H. apply elem_of_singleton in H. done.
  - simpl. by apply elem_of_singleton.
Defined.

(** X18. A threshold given on the command line stops the run only if there
    is a count to compare it with: when the cleaned corpus has no token at
    all, [main] returns normally with any threshold string and writes both
    artifacts. *)
Theorem main_string_threshold_no_token (nfd : str → str) (w : world)
    (argv : cli) (s raw : str) :
  cli_vocab_reduction_threshold argv = Some s →
  texts w !! default (lit "Input.txt") (cli_input argv) = Some raw →
  default (lit "Output.txt") (cli_output argv) ++ lit ".pkl" ∉ unwritable w →
  default (lit "Output.txt") (cli_output argv) ++ lit ".reduced.pkl"
    ∉ unwritable w →
  get_vocabulary_count
    (clean_sentences nfd (Py.split_lines (Py.strip (Py.universal_newlines raw))))
  = ∅ →
  main nfd argv w
  = (Ok tt,
     World (texts w)
           (<[default (lit "Output.txt") (cli_output argv) ++ lit ".reduced.pkl" :=
                update_dataset
                  (clean_sentences nfd
                     (Py.split_lines (Py.strip (Py.universal_newlines raw)))) ∅]>
              (<[default (lit "Output.txt") (cli_output argv) ++ lit ".pkl" :=
                   clean_sentences nfd
                     (Py.split_lines (Py.strip (Py.universal_newlines raw)))]>
                 (pickles w)))
           (unwritable w)).
Proof.
  intros Hs Hraw Hout1 Hout2 Hvoc.
  unfold main, preprocess_file, get_sentences_from_document, read_text,
    pickle_dump, lift, mbind, io_bind, mret, io_ret.
  rewrite Hs, Hraw. cbn [texts pickles unwritable].
  rewrite decide_False by done. rewrite Hvoc.
  unfold reduce_vocab. rewrite map_to_list_empty. simpl.
  by rewrite decide_False.
Qed.

Lemma main_string_threshold_no_token_witness :
  main nfd_fragment (Cli None None (Some (lit "abc")))
       (World {[ lit "Input.txt" := lit "12 + 30" ]} ∅ ∅)
  = (Ok tt,
     World {[ lit "Input.txt" := lit "12 + 30" ]}
           (<[lit "Output.txt" ++ lit ".reduced.pkl" :=
                update_dataset
                  (clean_sentences nfd_fragment
                     (Py.split_lines
                        (Py.strip (Py.universal_newlines (lit "12 + 30"))))) ∅]>
              (<[lit "Output.txt" ++ lit ".pkl" :=
                   clean_sentences nfd_fragment
                     (Py.split_lines
                        (Py.strip (Py.universal_newlines (lit "12 + 30"))))]> ∅))
           ∅).
Proof.
  refine (main_string_threshold_no_token nfd_fragment
            (World {[ lit "Input.txt" := lit "12 + 30" ]} ∅ ∅)
            (Cli None None (Some (lit "abc"))) (lit "abc") (lit "12 + 30")
            eq_refl eq_refl _ _ _).
  - simpl. apply not_elem_of_empty.
  - simpl. apply not_elem_of_empty.
  - by vm_compute.
Defined.
